(** * unrolled/logger: the request-logging middleware of [logger.go]

    A shallow embedding of [logger.go] and the properties of its
    constructor [New], of the response observer [customResponseWriter]
    and of the wrapping handler [Logger.Handler].

    Conventions of the embedding:
    - Go's [int], on the 64-bit platforms, is a two's-complement integer
      of 64 bits, carried as [Z];
      the one arithmetic operation of the file, [c.size += size], is
      written with its wrap-around ([int_add]).
    - Go strings are byte strings: [string] with [String.length] for [len]
      and [String.eqb] for [==].
    - Pointer receivers ([*customResponseWriter], [*http.Request]) become
      explicit state passing.
    - [http.ResponseWriter] with its optional [http.Flusher] and
      [http.Hijacker] capabilities is a type class; the run-time type
      assertion [w.(http.Flusher)] is the test of an [option] field. *)

From Stdlib Require Import ZArith Lia List Bool Ascii String DecimalString.
From Stdlib.Strings Require Import Byte.
From stdpp Require Import base gmap strings list.

Local Open Scope string_scope.
Local Open Scope list_scope.
Local Open Scope Z_scope.

(** ** Go's [int] *)

Module GoInt.

Definition intSize : Z := 64.
Definition MaxInt : Z := 2 ^ (intSize - 1) - 1.
Definition MinInt : Z := - 2 ^ (intSize - 1).

(** Reduction of a mathematical integer to the [int] it is stored as. *)
Definition wrap (z : Z) : Z :=
  (z + 2 ^ (intSize - 1)) mod 2 ^ intSize - 2 ^ (intSize - 1).

(** [a + b] on [int]. *)
Definition int_add (a b : Z) : Z := wrap (a + b).

Definition in_range (z : Z) : Prop := MinInt <= z <= MaxInt.

(** The sum of a sequence of [int]s, added up the way Go adds them. *)
Definition int_sum (l : list Z) : Z := fold_left int_add l 0.

(** The same sum over the mathematical integers. *)
Definition Z_sum (l : list Z) : Z := fold_right Z.add 0 l.

(** [%d] of [fmt]: decimal digits, with a minus sign when negative. *)
Definition fmt_d (z : Z) : string := NilZero.string_of_int (Z.to_int z).

End GoInt.
Import GoInt.

(** ** Package [log]: the flag constants and the logger value *)

Definition log_Ldate : Z := Z.shiftl 1 0.
Definition log_Ltime : Z := Z.shiftl 1 1.
Definition log_Lmicroseconds : Z := Z.shiftl 1 2.
Definition log_Llongfile : Z := Z.shiftl 1 3.
Definition log_Lshortfile : Z := Z.shiftl 1 4.
Definition log_LstdFlags : Z := Z.lor log_Ldate log_Ltime.

(** An [io.Writer] value is known by its identity only: the two process
    streams, or some other writer (a buffer, a file) named by a number. *)
Inductive io_Writer : Type :=
| os_Stdout
| os_Stderr
| writer_at (id : nat).

(** [*log.Logger] as [log.New] builds it: destination, prefix and flags. *)
Record log_Logger : Type := log_New {
  log_out : io_Writer;
  log_prefix : string;
  log_flags : Z
}.

(** ** [Options] and [Logger] *)

Record Options : Type := mkOptions {
  Prefix : string;
  DisableAutoBrackets : bool;
  RemoteAddressHeaders : list string;
  Out : option io_Writer;          (* [None] is the nil interface *)
  OutputFlags : Z;
  IgnoredRequestURIs : list string
}.

(** [Options{}]: every field at its zero value. *)
Definition Options_zero : Options :=
  {| Prefix := EmptyString;
     DisableAutoBrackets := false;
     RemoteAddressHeaders := [];
     Out := None;
     OutputFlags := 0;
     IgnoredRequestURIs := [] |}.

Record Logger : Type := mkLogger {
  Logger_log : log_Logger;         (* the embedded [*log.Logger] *)
  opt : Options
}.

(** The three steps of [New], in the order of the source. *)

Definition New_prefix (o : Options) : string :=
  let prefix := Prefix o in
  if (0 <? String.length prefix)%nat && Bool.eqb (DisableAutoBrackets o) false
  then "[" +:+ prefix +:+ "] "
  else prefix.

Definition New_output (o : Options) : io_Writer :=
  match Out o with
  | Some w => w
  | None => os_Stdout
  end.

Definition New_flags (o : Options) : Z :=
  let flags := log_LstdFlags in
  if OutputFlags o =? -1 then 0
  else if negb (OutputFlags o =? 0) then OutputFlags o
  else flags.

(** [New(opts ...Options)]: the variadic arguments are a list. *)
Definition New (opts : list Options) : Logger :=
  let o :=
    match opts with
    | [] => Options_zero
    | o :: _ => o
    end in
  {| Logger_log := log_New (New_output o) (New_prefix o) (New_flags o);
     opt := o |}.

(** ** What the program takes from Go's standard library

    Two library functions are used as they come: the canonical form of a
    header name, applied by [http.Header.Get] to its argument, and the
    rendering of a [time.Duration] by [%s]. *)

Class GoStd : Type := {
  textproto_CanonicalMIMEHeaderKey : string -> string;
  time_Duration_String : Z -> string
}.

(** ** Package [net/http]: headers, requests, response writers *)

(** [http.Header] is [map[string][]string]. *)
Definition http_Header_Get `{GoStd} (h : gmap string (list string)) (key : string)
  : string :=
  match h !! textproto_CanonicalMIMEHeaderKey key with
  | Some (v :: _) => v
  | _ => EmptyString
  end.

(** The fields of [http.Request] that [logger.go] reads. *)
Record Request : Type := mkRequest {
  Method : string;
  RequestURI : string;
  Proto : string;
  RemoteAddr : string;
  Header : gmap string (list string)
}.

(** Go's [error]: nil is [None], a non-nil error is its message. *)
Record error : Type := fmt_Errorf { Error : string }.

Definition net_Conn : Type := nat.
Definition bufio_ReadWriter : Type := nat.

Definition WriteResult : Type := (Z * option error)%type.
Definition HijackResult : Type :=
  (option net_Conn * option bufio_ReadWriter * option error)%type.

(** [http.ResponseWriter]: the two methods the observer overrides, and the
    two optional interfaces a concrete writer type may also implement.
    ([Header()] is promoted unchanged from the embedded writer and touches
    neither field of the observer.) *)
Class http_ResponseWriter (W : Type) : Type := {
  rw_WriteHeader : Z -> W -> W;
  rw_Write : list byte -> W -> WriteResult * W;
  http_Flusher : option (W -> W);
  http_Hijacker : option (W -> HijackResult * W)
}.

(** ** [customResponseWriter] *)

Record customResponseWriter (W : Type) : Type := mkCRW {
  ResponseWriter : W;
  status : Z;
  size : Z
}.
Arguments mkCRW {W} _ _ _.
Arguments ResponseWriter {W} _.
Arguments status {W} _.
Arguments size {W} _.

Section CustomResponseWriter.
Context {W : Type} `{http_ResponseWriter W}.

Definition newCustomResponseWriter (w : W) : customResponseWriter W :=
  {| ResponseWriter := w; status := 200; size := 0 |}.

Definition customResponseWriter_WriteHeader (st : Z) (c : customResponseWriter W)
  : customResponseWriter W :=
  let c1 := {| ResponseWriter := ResponseWriter c; status := st; size := size c |} in
  {| ResponseWriter := rw_WriteHeader st (ResponseWriter c1);
     status := status c1;
     size := size c1 |}.

Definition customResponseWriter_Write (b : list byte) (c : customResponseWriter W)
  : WriteResult * customResponseWriter W :=
  let '((sz, err), w') := rw_Write b (ResponseWriter c) in
  ((sz, err),
   {| ResponseWriter := w'; status := status c; size := int_add (size c) sz |}).

Definition customResponseWriter_Flush (c : customResponseWriter W)
  : customResponseWriter W :=
  match http_Flusher with
  | Some f =>
      {| ResponseWriter := f (ResponseWriter c); status := status c; size := size c |}
  | None => c
  end.

Definition errNotHijacker : error :=
  fmt_Errorf "ResponseWriter does not implement the Hijacker interface".

Definition customResponseWriter_Hijack (c : customResponseWriter W)
  : HijackResult * customResponseWriter W :=
  match http_Hijacker with
  | Some hj =>
      let '(res, w') := hj (ResponseWriter c) in
      (res, {| ResponseWriter := w'; status := status c; size := size c |})
  | None => ((None, None, Some errNotHijacker), c)
  end.

(** The observer has all four methods, whatever it wraps. *)
#[export] Instance customResponseWriter_rw
  : http_ResponseWriter (customResponseWriter W) :=
  {| rw_WriteHeader := customResponseWriter_WriteHeader;
     rw_Write := customResponseWriter_Write;
     http_Flusher := Some customResponseWriter_Flush;
     http_Hijacker := Some customResponseWriter_Hijack |}.

End CustomResponseWriter.

(** ** Handlers

    An [http.Handler] is any Go code that, given the response writer and
    the request, calls the writer's methods, looks at what they return, may
    assign to the fields of the request it was handed (it holds a pointer),
    and returns.  A handler that panics or never returns is outside this
    model: the statements below are about calls that return.  The calls
    are those of the four methods the observer has; the other optional
    interfaces a writer may offer ([http.Pusher], [io.ReaderFrom] and the
    like) are not part of it, and the observer has no method for them. *)

Inductive Call : Type :=
| CallWriteHeader (code : Z)
| CallWrite (b : list byte)
| CallFlush                      (* [if f, ok := w.(http.Flusher); ok { f.Flush() }] *)
| CallHijack.                    (* [if h, ok := w.(http.Hijacker); ok { h.Hijack() }] *)

Inductive Reply : Type :=
| ReplyNone
| ReplyWrite (n : Z) (err : option error)
| ReplyHijack (conn : option net_Conn) (brw : option bufio_ReadWriter) (err : option error)
| ReplyNotImplemented.           (* the type assertion gave [ok == false] *)

Inductive Prog : Type :=
| Return
| Invoke (c : Call) (k : Reply -> Prog)
| Assign (f : Request -> Request) (k : Prog).

Definition http_Handler : Type := Request -> Prog.

Section Exec.
Context {V : Type} `{http_ResponseWriter V}.

Definition invoke (c : Call) (v : V) : Reply * V :=
  match c with
  | CallWriteHeader code => (ReplyNone, rw_WriteHeader code v)
  | CallWrite b => let '((n, err), v') := rw_Write b v in (ReplyWrite n err, v')
  | CallFlush =>
      match http_Flusher with
      | Some f => (ReplyNone, f v)
      | None => (ReplyNotImplemented, v)
      end
  | CallHijack =>
      match http_Hijacker with
      | Some hj => let '((conn, brw, err), v') := hj v in (ReplyHijack conn brw err, v')
      | None => (ReplyNotImplemented, v)
      end
  end.

(** Running a handler body: the calls it made with what each returned,
    the writer and the request as it leaves them. *)
Fixpoint exec (p : Prog) (v : V) (r : Request)
  : list (Call * Reply) * V * Request :=
  match p with
  | Return => ([], v, r)
  | Invoke c k =>
      let '(rep, v') := invoke c v in
      let '(tr, v'', r') := exec (k rep) v' r in
      ((c, rep) :: tr, v'', r')
  | Assign f k => exec k v (f r)
  end.

Definition ServeHTTP (h : http_Handler) (v : V) (r : Request)
  : list (Call * Reply) * V * Request :=
  exec (h r) v r.

End Exec.

(** ** [Logger.Handler] *)

(** One call of [Printf] on a [log.Logger]: the logger it was made on and the
    formatted message.  The logger's own decoration of the line (prefix,
    flags, final newline) is the business of package [log]. *)
Record log_Line : Type := mkLine {
  line_logger : log_Logger;
  line_msg : string
}.

Definition log_Printf (lg : log_Logger) (msg : string) (sink : list log_Line)
  : list log_Line :=
  sink ++ [ {| line_logger := lg; line_msg := msg |} ].

(** The double-quote character, byte 34. *)
Definition dquote : string := String (ascii_of_nat 34) EmptyString.

Section Handler.
Context `{GoStd} {W : Type} `{http_ResponseWriter W}.

(** [for _, ignoredURI := range ... { if ignoredURI == r.RequestURI { return } }] *)
Fixpoint isIgnored (ignored : list string) (r : Request) : bool :=
  match ignored with
  | [] => false
  | ignoredURI :: rest =>
      if String.eqb ignoredURI (RequestURI r) then true else isIgnored rest r
  end.

(** The address loop.  Besides the address it returns the header keys it
    called [r.Header.Get] with, in order. *)
Fixpoint remoteAddrLoop (keys : list string) (r : Request) (addr : string)
  : string * list string :=
  match keys with
  | [] => (addr, [])
  | headerKey :: rest =>
      let val := http_Header_Get (Header r) headerKey in
      if (0 <? String.length val)%nat
      then (val, [headerKey])
      else let '(a, looked) := remoteAddrLoop rest r addr in (a, headerKey :: looked)
  end.

Definition remoteAddr (l : Logger) (r : Request) : string :=
  fst (remoteAddrLoop (RemoteAddressHeaders (opt l)) r (RemoteAddr r)).

(** The [Sprintf] of the log call: the address between parentheses, the
    method, request target and protocol between double quotes, then the
    status and the size by the verb d and the duration by the verb s,
    single spaces in between. *)
Definition formatLine (addr method uri proto : string) (st sz : Z) (elapsed : Z)
  : string :=
  "(" +:+ addr +:+ ") " +:+
  dquote +:+ method +:+ " " +:+ uri +:+ " " +:+ proto +:+ dquote +:+ " " +:+
  fmt_d st +:+ " " +:+ fmt_d sz +:+ " " +:+ time_Duration_String elapsed.

(** The function [Handler] returns, applied to [w] and [r].  [elapsed] is
    what [time.Since(start)] reads when the line is formatted; [sink] is
    what has been printed so far. *)
Definition Logger_Handler (l : Logger) (next : http_Handler)
    (w : W) (r : Request) (elapsed : Z) (sink : list log_Line)
  : W * Request * list log_Line :=
  let crw := newCustomResponseWriter w in
  let '(_, crw, r) := ServeHTTP next crw r in
  if isIgnored (IgnoredRequestURIs (opt l)) r
  then (ResponseWriter crw, r, sink)
  else
    let addr := remoteAddr l r in
    (ResponseWriter crw, r,
     log_Printf (Logger_log l)
       (formatLine addr (Method r) (RequestURI r) (Proto r)
                   (status crw) (size crw) elapsed)
       sink).

End Handler.

(** ** Reading a trace of calls *)

(** The [Write] calls of a trace: the bytes offered, the count and the
    error returned. *)
Fixpoint writes_of (tr : list (Call * Reply)) : list (list byte * Z * option error) :=
  match tr with
  | [] => []
  | (CallWrite b, ReplyWrite n err) :: rest => (b, n, err) :: writes_of rest
  | _ :: rest => writes_of rest
  end.

(** The byte counts returned by the [Write] calls of a trace. *)
Definition counts_of (tr : list (Call * Reply)) : list Z :=
  map (fun x => snd (fst x)) (writes_of tr).

(** The codes of the [WriteHeader] calls of a trace. *)
Fixpoint codes_of (tr : list (Call * Reply)) : list Z :=
  match tr with
  | [] => []
  | (CallWriteHeader code, _) :: rest => code :: codes_of rest
  | _ :: rest => codes_of rest
  end.

(** The error a reply carries, if any. *)
Definition reply_error (rep : Reply) : option error :=
  match rep with
  | ReplyWrite _ err => err
  | ReplyHijack _ _ err => err
  | _ => None
  end.

(** A handler body that never assigns to the request. *)
Fixpoint read_only (p : Prog) : Prop :=
  match p with
  | Return => True
  | Invoke _ k => forall rep, read_only (k rep)
  | Assign _ _ => False
  end.

(** ** A listening post on the underlying writer

    [Spy W] is the writer [W] with a journal: every call that reaches it is
    appended, with what [W] returned.  It implements the optional
    interfaces exactly when [W] does. *)

Record Spy (W : Type) : Type := mkSpy {
  spy_inner : W;
  spy_log : list (Call * Reply)
}.
Arguments mkSpy {W} _ _.
Arguments spy_inner {W} _.
Arguments spy_log {W} _.

Section SpyWriter.
Context {W : Type} `{http_ResponseWriter W}.

Definition spy (w : W) : Spy W := mkSpy w [].

Definition spy_WriteHeader (code : Z) (s : Spy W) : Spy W :=
  mkSpy (rw_WriteHeader code (spy_inner s))
        (spy_log s ++ [(CallWriteHeader code, ReplyNone)]).

Definition spy_Write (b : list byte) (s : Spy W) : WriteResult * Spy W :=
  let '((n, err), w') := rw_Write b (spy_inner s) in
  ((n, err), mkSpy w' (spy_log s ++ [(CallWrite b, ReplyWrite n err)])).

Definition spy_Flush (f : W -> W) (s : Spy W) : Spy W :=
  mkSpy (f (spy_inner s)) (spy_log s ++ [(CallFlush, ReplyNone)]).

Definition spy_Hijack (hj : W -> HijackResult * W) (s : Spy W)
  : HijackResult * Spy W :=
  let '((conn, brw, err), w') := hj (spy_inner s) in
  ((conn, brw, err),
   mkSpy w' (spy_log s ++ [(CallHijack, ReplyHijack conn brw err)])).

#[export] Instance Spy_rw : http_ResponseWriter (Spy W) :=
  {| rw_WriteHeader := spy_WriteHeader;
     rw_Write := spy_Write;
     http_Flusher := option_map spy_Flush http_Flusher;
     http_Hijacker := option_map spy_Hijack http_Hijacker |}.

(** An observer over a spied writer and one over the writer itself, in
    step with one another. *)
Definition same_but_spied (c1 : customResponseWriter (Spy W))
    (c2 : customResponseWriter W) : Prop :=
  spy_inner (ResponseWriter c1) = ResponseWriter c2 /\
  status c1 = status c2 /\ size c1 = size c2.

End SpyWriter.

(** ** What a writer can do, what a handler asks for *)

Section Capabilities.
Context (W : Type) `{http_ResponseWriter W}.

(** Whether a call made on the observer has a method of [W] to go to:
    [WriteHeader] and [Write] always, [Flush] and [Hijack] when [W] passes
    the type assertion. *)
Definition implements (c : Call) : bool :=
  match c with
  | CallWriteHeader _ | CallWrite _ => true
  | CallFlush => match http_Flusher with Some _ => true | None => false end
  | CallHijack => match http_Hijacker with Some _ => true | None => false end
  end.

(** The entries of a trace whose call [W] implements. *)
Definition reaching (tr : list (Call * Reply)) : list (Call * Reply) :=
  List.filter (fun e => implements (fst e)) tr.

(** The contract of [io.Writer] on the count: between 0 and the length of
    the slice offered. *)
Definition obeys_io_Writer : Prop :=
  forall (b : list byte) (w : W),
    0 <= fst (fst (rw_Write b w)) <= Z.of_nat (length b).

End Capabilities.
Arguments implements W {_} c.
Arguments reaching W {_} tr.
Arguments obeys_io_Writer W {_}.

(** A handler body all of whose calls satisfy [ok], whatever it is
    answered. *)
Fixpoint uses_only (ok : Call -> bool) (p : Prog) : Prop :=
  match p with
  | Return => True
  | Invoke c k => ok c = true /\ forall rep, uses_only ok (k rep)
  | Assign _ k => uses_only ok k
  end.

(** The lengths of the slices offered to the [Write] calls of a trace. *)
Definition offered_of (tr : list (Call * Reply)) : list Z :=
  map (fun x => Z.of_nat (length (fst (fst x)))) (writes_of tr).

(** The same wrapped handler serving one request after another, each with
    its own response writer and its own elapsed time, on one sink. *)
Definition Logger_serve `{GoStd} {W : Type} `{http_ResponseWriter W}
    (l : Logger) (next : http_Handler)
    (reqs : list (W * Request * Z)) (sink : list log_Line) : list log_Line :=
  fold_left
    (fun s x => snd (Logger_Handler l next (fst (fst x)) (snd (fst x)) (snd x) s))
    reqs sink.

(** ** Concrete collaborators for the examples *)

Module Sample.

(** A response writer in the manner of [httptest.ResponseRecorder], the
    writer of [logger_test.go]: it keeps the first status only, accepts
    every byte, can flush and cannot be hijacked. *)
Record Recorder : Type := mkRecorder {
  Code : Z;
  Body : list byte;
  wroteHeader : bool;
  Flushed : bool
}.

Definition NewRecorder : Recorder :=
  {| Code := 200; Body := []; wroteHeader := false; Flushed := false |}.

Definition Recorder_WriteHeader (code : Z) (rec : Recorder) : Recorder :=
  if wroteHeader rec then rec
  else {| Code := code; Body := Body rec; wroteHeader := true; Flushed := Flushed rec |}.

Definition Recorder_Write (b : list byte) (rec : Recorder) : WriteResult * Recorder :=
  let rec1 := Recorder_WriteHeader 200 rec in
  ((Z.of_nat (length b), None),
   {| Code := Code rec1; Body := Body rec1 ++ b;
      wroteHeader := wroteHeader rec1; Flushed := Flushed rec1 |}).

Definition Recorder_Flush (rec : Recorder) : Recorder :=
  let rec1 := Recorder_WriteHeader 200 rec in
  {| Code := Code rec1; Body := Body rec1;
     wroteHeader := wroteHeader rec1; Flushed := true |}.

#[global] Instance Recorder_rw : http_ResponseWriter Recorder :=
  {| rw_WriteHeader := Recorder_WriteHeader;
     rw_Write := Recorder_Write;
     http_Flusher := Some Recorder_Flush;
     http_Hijacker := None |}.

(** A connection-backed writer with room for a fixed number of bytes: a
    write that does not fit is cut short and reports an error.  It can be
    hijacked (and then hands out connection 7 with buffer 8) and cannot
    flush. *)
Record Conn : Type := mkConn {
  room : nat;
  sent : list byte;
  hijacked : bool
}.

Definition errShortWrite : error := fmt_Errorf "short write".

Definition Conn_WriteHeader (code : Z) (c : Conn) : Conn := c.

Definition Conn_Write (b : list byte) (c : Conn) : WriteResult * Conn :=
  let n := Nat.min (length b) (room c) in
  ((Z.of_nat n, if (n <? length b)%nat then Some errShortWrite else None),
   {| room := room c - n; sent := sent c ++ firstn n b; hijacked := hijacked c |}).

Definition Conn_Hijack (c : Conn) : HijackResult * Conn :=
  ((Some 7%nat, Some 8%nat, None),
   {| room := room c; sent := sent c; hijacked := true |}).

#[global] Instance Conn_rw : http_ResponseWriter Conn :=
  {| rw_WriteHeader := Conn_WriteHeader;
     rw_Write := Conn_Write;
     http_Flusher := None;
     http_Hijacker := Some Conn_Hijack |}.

(** A writer that claims a count of its own choosing for every write. *)
Record Liar : Type := mkLiar { claim : Z }.

#[global] Instance Liar_rw : http_ResponseWriter Liar :=
  {| rw_WriteHeader := fun _ l => l;
     rw_Write := fun _ l => ((claim l, None), l);
     http_Flusher := None;
     http_Hijacker := None |}.

(** Library functions for the examples: header names taken as they are,
    durations printed as a count of nanoseconds. *)
Definition std : GoStd :=
  {| textproto_CanonicalMIMEHeaderKey := fun s => s;
     time_Duration_String := fun d => fmt_d d +:+ "ns" |}.

(** The handlers of [logger_test.go]. *)
Definition bar : list byte := [x62; x61; x72]%byte.

Definition myHandler : http_Handler :=
  fun _ => Invoke (CallWrite bar) (fun _ => Return).

(** A handler that sets the status twice before writing. *)
Definition twiceHandler : http_Handler :=
  fun _ => Invoke (CallWriteHeader 404) (fun _ =>
           Invoke (CallWriteHeader 500) (fun _ =>
           Invoke (CallWrite bar) (fun _ => Return))).

Definition req (uri : string) : Request :=
  {| Method := "GET"; RequestURI := uri; Proto := "HTTP/1.1";
     RemoteAddr := "8.8.4.4"; Header := ∅ |}.

Definition withHeader (k v : string) (r : Request) : Request :=
  {| Method := Method r; RequestURI := RequestURI r; Proto := Proto r;
     RemoteAddr := RemoteAddr r; Header := <[k := [v]]> (Header r) |}.

Definition options : Options :=
  {| Prefix := "app"; DisableAutoBrackets := false;
     RemoteAddressHeaders := ["X-Real-IP"; "X-Forwarded-Proto"];
     Out := Some (writer_at 1); OutputFlags := -1;
     IgnoredRequestURIs := ["/favicon.ico"; "/foo"] |}.

(** A handler that writes and then flushes. *)
Definition flushHandler : http_Handler :=
  fun _ => Invoke (CallWrite bar) (fun _ => Invoke CallFlush (fun _ => Return)).

End Sample.

(** * Properties *)

(** ** Arithmetic of [int] *)

Section IntFacts.

Lemma wrap_in_range (z : Z) : in_range z -> wrap z = z.
Proof.
  unfold in_range, MinInt, MaxInt, wrap, intSize. intros Hz.
  rewrite Z.mod_small; lia.
Qed.

Lemma wrap_range (z : Z) : in_range (wrap z).
Proof.
  unfold in_range, MinInt, MaxInt, wrap, intSize.
  pose proof (Z.mod_pos_bound (z + 2 ^ (64 - 1)) (2 ^ 64) ltac:(lia)). lia.
Qed.

Lemma wrap_add_l (a b : Z) : wrap (wrap a + b) = wrap (a + b).
Proof.
  unfold wrap. f_equal.
  replace ((a + 2 ^ (intSize - 1)) mod 2 ^ intSize - 2 ^ (intSize - 1) + b
           + 2 ^ (intSize - 1))
    with ((a + 2 ^ (intSize - 1)) mod 2 ^ intSize + b) by lia.
  rewrite Z.add_mod_idemp_l by (unfold intSize; lia).
  f_equal. lia.
Qed.

Lemma fold_int_add (l : list Z) (a : Z) :
  fold_left int_add l (wrap a) = wrap (a + Z_sum l).
Proof.
  revert a. induction l as [|n l IH]; intros a; simpl.
  - f_equal. lia.
  - unfold int_add at 2. rewrite wrap_add_l, IH. f_equal. lia.
Qed.

(** Go's sum is the mathematical sum reduced to 64 bits. *)
Lemma int_sum_wrap (l : list Z) : int_sum l = wrap (Z_sum l).
Proof.
  unfold int_sum. change 0 with (wrap 0) at 1. now rewrite fold_int_add.
Qed.

(** It is the mathematical sum whenever that fits in an [int]. *)
Lemma int_sum_exact (l : list Z) : in_range (Z_sum l) -> int_sum l = Z_sum l.
Proof. intros Hl. rewrite int_sum_wrap. now apply wrap_in_range. Qed.

End IntFacts.

(** ** The constructor *)

(** C5. The flags given to [log.New] are resolved three ways, whatever
    else is passed to [New]: [OutputFlags] equal to -1 gives 0, no
    decoration; [OutputFlags] equal to 0, which is also the value of an
    absent field, gives [log.LstdFlags], date and time; any other value is
    handed over as it is. *)
Theorem New_flags_three_way (o : Options) (rest : list Options) :
  let flags := log_flags (Logger_log (New (o :: rest))) in
  (OutputFlags o = -1 -> flags = 0) /\
  (OutputFlags o = 0 -> flags = Z.lor log_Ldate log_Ltime) /\
  (OutputFlags o <> -1 -> OutputFlags o <> 0 -> flags = OutputFlags o).
Proof.
  cbn. unfold New_flags. repeat split.
  - intros ->. reflexivity.
  - intros ->. reflexivity.
  - intros Hm Hz.
    destruct (Z.eqb_spec (OutputFlags o) (-1)) as [|_]; [contradiction|].
    destruct (Z.eqb_spec (OutputFlags o) 0) as [|_]; [contradiction|].
    reflexivity.
Qed.

Lemma New_flags_three_way_witness :
  log_flags (Logger_log (New [Sample.options])) = 0 /\
  log_flags (Logger_log (New [Options_zero])) = 3 /\
  log_flags (Logger_log
    (New [mkOptions EmptyString false [] None log_Lshortfile []; Options_zero])) = 16.
Proof.
  split; [|split].
  - apply (proj1 (New_flags_three_way Sample.options [])). reflexivity.
  - apply (proj1 (proj2 (New_flags_three_way Options_zero []))). reflexivity.
  - apply (proj2 (proj2 (New_flags_three_way
             (mkOptions EmptyString false [] None log_Lshortfile []) [Options_zero])));
      vm_compute; discriminate.
Defined.

(** C6. The prefix given to [log.New] is the configured prefix between
    square brackets and followed by a space when the prefix is not empty
    and [DisableAutoBrackets] is false; it is empty when the configured
    prefix is empty, whatever [DisableAutoBrackets] says; and it is the
    configured prefix, undecorated, when [DisableAutoBrackets] is true. *)
Theorem New_prefix_three_way (o : Options) (rest : list Options) :
  let prefix := log_prefix (Logger_log (New (o :: rest))) in
  (Prefix o <> EmptyString -> DisableAutoBrackets o = false ->
   prefix = "[" +:+ Prefix o +:+ "] ") /\
  (Prefix o = EmptyString -> prefix = EmptyString) /\
  (DisableAutoBrackets o = true -> prefix = Prefix o).
Proof.
  cbn. unfold New_prefix. repeat split.
  - intros Hne ->. destruct (Prefix o); [contradiction|reflexivity].
  - intros ->. reflexivity.
  - intros ->. rewrite andb_false_r. reflexivity.
Qed.

Lemma New_prefix_three_way_witness :
  log_prefix (Logger_log (New [Sample.options])) = "[app] " /\
  log_prefix (Logger_log
    (New [mkOptions EmptyString true [] None 0 []])) = EmptyString /\
  log_prefix (Logger_log
    (New [mkOptions "testapp_-_yo2()" true [] None 0 []])) = "testapp_-_yo2()".
Proof.
  split; [|split].
  - apply (proj1 (New_prefix_three_way Sample.options []));
      [discriminate | reflexivity].
  - apply (proj1 (proj2 (New_prefix_three_way
             (mkOptions EmptyString true [] None 0 []) []))). reflexivity.
  - apply (proj2 (proj2 (New_prefix_three_way
             (mkOptions "testapp_-_yo2()" true [] None 0 []) []))). reflexivity.
Defined.

(** C8. With two or more [Options] passed to [New], the [Logger] built is
    configured by the first and by nothing else: the options it keeps,
    with the ignore list and the address headers, are the first argument;
    the destination, the prefix and the flags of its line logger are
    those computed from the first argument's [Out], [Prefix] with
    [DisableAutoBrackets], and [OutputFlags]; and it is the [Logger] built
    from the first argument alone, whatever the later ones are.  [New] has
    no error result to report them with. *)
Theorem New_first_option_only (o o' : Options) (rest : list Options) :
  let l := New (o :: o' :: rest) in
  opt l = o /\
  IgnoredRequestURIs (opt l) = IgnoredRequestURIs o /\
  RemoteAddressHeaders (opt l) = RemoteAddressHeaders o /\
  log_out (Logger_log l) =
    match Out o with Some w => w | None => os_Stdout end /\
  log_prefix (Logger_log l) =
    match Prefix o, DisableAutoBrackets o with
    | String _ _, false => "[" +:+ Prefix o +:+ "] "
    | _, _ => Prefix o
    end /\
  log_flags (Logger_log l) =
    (if OutputFlags o =? -1 then 0
     else if OutputFlags o =? 0 then Z.lor log_Ldate log_Ltime
     else OutputFlags o) /\
  l = New [o].
Proof.
  cbn. repeat split.
  - unfold New_prefix.
    destruct (Prefix o) as [|ch p], (DisableAutoBrackets o); reflexivity.
  - unfold New_flags.
    destruct (OutputFlags o =? -1), (OutputFlags o =? 0); reflexivity.
Qed.

(** The two configurations of [TestIgnoreMultipleConfigs]: a buffer with
    the default flags first, standard error without flags second. *)
Example New_two_options :
  let opt1 := mkOptions EmptyString false [] (Some (writer_at 1)) 0 [] in
  let opt2 := mkOptions EmptyString false [] (Some os_Stderr) (-1) [] in
  Logger_log (New [opt1; opt2]) = log_New (writer_at 1) EmptyString 3 /\
  Logger_log (New [opt2; opt1]) = log_New os_Stderr EmptyString 0.
Proof. split; reflexivity. Qed.

(** C10. [New()] builds the same [Logger] as [New(Options{})]: an empty
    prefix, standard output as destination, [log.LstdFlags], no address
    header and no ignored request target. *)
Theorem New_no_option :
  New [] = New [Options_zero] /\
  log_prefix (Logger_log (New [])) = EmptyString /\
  log_out (Logger_log (New [])) = os_Stdout /\
  log_flags (Logger_log (New [])) = log_LstdFlags /\
  RemoteAddressHeaders (opt (New [])) = [] /\
  IgnoredRequestURIs (opt (New [])) = [].
Proof. repeat split. Qed.

(** ** The observer, call by call *)

Lemma last_cons_default {A : Type} (a d : A) (l : list A) :
  List.last (a :: l) d = List.last l a.
Proof.
  revert a d. induction l as [|b l IH]; intros a d; [reflexivity|].
  change (List.last (a :: b :: l) d) with (List.last (b :: l) d).
  now rewrite (IH b d), (IH b a).
Qed.

Lemma writes_of_app (t1 t2 : list (Call * Reply)) :
  writes_of (t1 ++ t2) = writes_of t1 ++ writes_of t2.
Proof.
  induction t1 as [|[c rep] t1 IH]; [reflexivity|].
  destruct c, rep; simpl; rewrite ?IH; reflexivity.
Qed.

Lemma counts_of_app (t1 t2 : list (Call * Reply)) :
  counts_of (t1 ++ t2) = counts_of t1 ++ counts_of t2.
Proof. unfold counts_of. rewrite writes_of_app. apply map_app. Qed.

Section ObserverSteps.
Context {W : Type} `{http_ResponseWriter W}.

(** One call on the observer: the status afterwards is the code of a
    [WriteHeader], and is left alone by the other calls. *)
Lemma invoke_status (c0 : Call) (c c' : customResponseWriter W) (rep : Reply) :
  invoke c0 c = (rep, c') ->
  status c' = List.last (codes_of [(c0, rep)]) (status c).
Proof.
  destruct c0; simpl.
  - intros [= <- <-]. reflexivity.
  - unfold customResponseWriter_Write.
    destruct (rw_Write b (ResponseWriter c)) as [[n err] w'].
    intros [= <- <-]. reflexivity.
  - unfold customResponseWriter_Flush.
    destruct http_Flusher; intros [= <- <-]; reflexivity.
  - unfold customResponseWriter_Hijack.
    destruct http_Hijacker as [hj|].
    + destruct (hj (ResponseWriter c)) as [[[conn brw] err] w'].
      intros [= <- <-]. reflexivity.
    + intros [= <- <-]. reflexivity.
Qed.

Lemma exec_status (p : Prog) (c : customResponseWriter W) (r : Request) :
  let '(tr, c', _) := exec p c r in
  status c' = List.last (codes_of tr) (status c).
Proof.
  revert c r. induction p as [|c0 k IH|f k IH]; intros c r; simpl.
  - reflexivity.
  - destruct (invoke c0 c) as [rep c1] eqn:Hstep.
    specialize (IH rep c1 r).
    destruct (exec (k rep) c1 r) as [[tr c2] r2].
    apply invoke_status in Hstep. rewrite IH, Hstep.
    destruct c0; cbn [codes_of]; try reflexivity.
    now rewrite !last_cons_default.
  - apply IH.
Qed.

(** One call on an observer that wraps a spied writer: what the spy
    noted down, and what became of the size. *)
Lemma invoke_size (c0 : Call) (c c' : customResponseWriter (Spy W)) (rep : Reply) :
  invoke c0 c = (rep, c') ->
  exists u,
    spy_log (ResponseWriter c') = spy_log (ResponseWriter c) ++ u /\
    writes_of u = writes_of [(c0, rep)] /\
    size c' = fold_left int_add (counts_of u) (size c).
Proof.
  destruct c0; simpl.
  - intros [= <- <-]. eexists. simpl. repeat split.
  - unfold customResponseWriter_Write. simpl. unfold spy_Write.
    destruct (rw_Write b (spy_inner (ResponseWriter c))) as [[n err] w'].
    intros [= <- <-]. eexists. simpl. repeat split.
  - unfold customResponseWriter_Flush. simpl.
    destruct http_Flusher as [f|]; simpl; intros [= <- <-].
    + eexists. simpl. repeat split.
    + exists []. rewrite app_nil_r. repeat split.
  - unfold customResponseWriter_Hijack. simpl.
    destruct http_Hijacker as [hj|]; simpl.
    + unfold spy_Hijack.
      destruct (hj (spy_inner (ResponseWriter c))) as [[[conn brw] err] w'].
      intros [= <- <-]. eexists. simpl. repeat split.
    + intros [= <- <-]. exists []. rewrite app_nil_r. repeat split.
Qed.

Lemma exec_size (p : Prog) (c : customResponseWriter (Spy W)) (r : Request) :
  let '(tr, c', _) := exec p c r in
  exists u,
    spy_log (ResponseWriter c') = spy_log (ResponseWriter c) ++ u /\
    writes_of u = writes_of tr /\
    size c' = fold_left int_add (counts_of u) (size c).
Proof.
  revert c r. induction p as [|c0 k IH|f k IH]; intros c r; simpl.
  - exists []. rewrite app_nil_r. repeat split.
  - destruct (invoke c0 c) as [rep c1] eqn:Hstep.
    specialize (IH rep c1 r).
    destruct (exec (k rep) c1 r) as [[tr c2] r2].
    destruct (invoke_size _ _ _ _ Hstep) as (u1 & Hlog1 & Hw1 & Hsz1).
    destruct IH as (u2 & Hlog2 & Hw2 & Hsz2).
    exists (u1 ++ u2). repeat split.
    + rewrite Hlog2, Hlog1. now rewrite app_assoc.
    + rewrite writes_of_app, Hw1, Hw2.
      change ((c0, rep) :: tr) with ([(c0, rep)] ++ tr).
      now rewrite writes_of_app.
    + rewrite counts_of_app, fold_left_app, <- Hsz1. exact Hsz2.
  - apply IH.
Qed.

(** The spy changes nothing: with or without it the handler sees the
    same replies and the wrapped writer ends in the same state. *)
Lemma invoke_spied (c0 : Call) c1 c2 :
  same_but_spied c1 c2 ->
  fst (invoke c0 c1) = fst (invoke c0 c2) /\
  same_but_spied (snd (invoke c0 c1)) (snd (invoke c0 c2)).
Proof.
  destruct c1 as [[w1 lg] st1 sz1], c2 as [w2 st2 sz2].
  intros (Hw & Hst & Hsz). simpl in Hw, Hst, Hsz. subst w2 st2 sz2.
  destruct c0; simpl.
  - repeat split.
  - unfold customResponseWriter_Write. simpl. unfold spy_Write. simpl.
    destruct (rw_Write b w1) as [[n err] w']. repeat split.
  - unfold customResponseWriter_Flush. simpl.
    destruct http_Flusher; repeat split.
  - unfold customResponseWriter_Hijack. simpl.
    destruct http_Hijacker as [hj|]; simpl; [|repeat split].
    unfold spy_Hijack. simpl.
    destruct (hj w1) as [[[conn brw] err] w']. repeat split.
Qed.

Lemma exec_spied (p : Prog) c1 c2 (r : Request) :
  same_but_spied c1 c2 ->
  let '(tr1, c1', r1) := exec p c1 r in
  let '(tr2, c2', r2) := exec p c2 r in
  tr1 = tr2 /\ same_but_spied c1' c2' /\ r1 = r2.
Proof.
  revert c1 c2 r. induction p as [|c0 k IH|f k IH]; intros c1 c2 r Hs; simpl.
  - repeat split; apply Hs.
  - destruct (invoke_spied c0 c1 c2 Hs) as [Hrep Hnext].
    destruct (invoke c0 c1) as [rep1 c1'], (invoke c0 c2) as [rep2 c2'].
    simpl in Hrep, Hnext. subst rep2.
    specialize (IH rep1 c1' c2' r Hnext).
    destruct (exec (k rep1) c1' r) as [[tr1 d1] r1].
    destruct (exec (k rep1) c2' r) as [[tr2 d2] r2].
    destruct IH as (-> & Hd & ->). repeat split; apply Hd.
  - now apply IH.
Qed.

(** A handler that does not assign to the request leaves it as it was. *)
Lemma exec_read_only {V : Type} `{http_ResponseWriter V}
    (p : Prog) (v : V) (r : Request) :
  read_only p -> snd (exec p v r) = r.
Proof.
  revert v. induction p as [|c0 k IH|f k IH]; intros v Hro; simpl.
  - reflexivity.
  - destruct (invoke c0 v) as [rep v1].
    specialize (IH rep v1 (Hro rep)).
    destruct (exec (k rep) v1 r) as [[tr v2] r2]. exact IH.
  - destruct Hro.
Qed.

End ObserverSteps.

(** ** The observer, over a whole request *)

(** The first call does not win, against C2 as worded: a handler that sets
    404 and then 500 on a fresh observer leaves 500 in [status], not the
    404 of its first call (the recorder underneath, like the transport,
    keeps 404). *)
Lemma status_first_call_refuted :
  let '(tr, crw, _) :=
    ServeHTTP Sample.twiceHandler
      (newCustomResponseWriter Sample.NewRecorder) (Sample.req "/") in
  codes_of tr = [404; 500] /\
  Sample.Code (ResponseWriter crw) = 404 /\
  status crw = 500 /\
  status crw <> hd 200 (codes_of tr).
Proof. vm_compute. repeat split; discriminate. Qed.

(** C2, amended. On a freshly built observer, after any sequence of calls:
    the recorded status is 200 if [WriteHeader] was never called, and
    otherwise the code of the latest [WriteHeader] call; every call
    overwrites the one before. *)
Theorem status_latest_call {W : Type} `{http_ResponseWriter W}
    (p : Prog) (w : W) (r : Request) :
  let out := exec p (newCustomResponseWriter w) r in
  status out.1.2 = List.last (codes_of out.1.1) 200.
Proof.
  pose proof (exec_status p (newCustomResponseWriter w) r) as Hx.
  cbv zeta. now destruct (exec p (newCustomResponseWriter w) r) as [[tr crw] r'].
Qed.

(** C4. On a freshly built observer, after any sequence of calls: every
    [Write] returned to the handler the very count and error the wrapped
    writer returned for it; [size] is the sum, starting from 0 and added
    up as Go adds [int]s, of the counts the wrapped writer returned,
    whether or not they fall short of the lengths offered; and that is
    their sum as integers whenever this sum is an [int].  The wrapped
    writer is spied on to know what it returned. *)
Theorem size_sums_underlying_counts {W : Type} `{http_ResponseWriter W}
    (p : Prog) (w : W) (r : Request) :
  let out := exec p (newCustomResponseWriter (spy w)) r in
  let crw := out.1.2 in
  let returned := spy_log (ResponseWriter crw) in
  writes_of out.1.1 = writes_of returned /\
  size crw = int_sum (counts_of returned) /\
  (in_range (Z_sum (counts_of returned)) -> size crw = Z_sum (counts_of returned)).
Proof.
  pose proof (exec_size p (newCustomResponseWriter (spy w)) r) as Hx.
  cbv zeta. destruct (exec p (newCustomResponseWriter (spy w)) r) as [[tr crw] r'].
  destruct Hx as (u & Hlog & Hw & Hsz). simpl in Hlog. subst u.
  split; [now symmetry | split; [exact Hsz|]].
  intros Hr. rewrite <- (int_sum_exact _ Hr). exact Hsz.
Qed.

Lemma size_sums_underlying_counts_witness :
  size (exec (Sample.twiceHandler (Sample.req "/"))
          (newCustomResponseWriter (spy (Sample.mkConn 2 [] false)))
          (Sample.req "/")).1.2 = 2.
Proof.
  etransitivity.
  - apply (proj2 (proj2 (size_sums_underlying_counts
             (Sample.twiceHandler (Sample.req "/"))
             (Sample.mkConn 2 [] false) (Sample.req "/")))).
    vm_compute. split; discriminate.
  - reflexivity.
Defined.

(** The journal is only a journal: spied on or not, a fresh observer gives
    the handler the same replies and ends with the same status, the same
    size and the same wrapped writer. *)
Corollary spy_transparent {W : Type} `{http_ResponseWriter W}
    (p : Prog) (w : W) (r : Request) :
  let spied := exec p (newCustomResponseWriter (spy w)) r in
  let plain := exec p (newCustomResponseWriter w) r in
  spied.1.1 = plain.1.1 /\ same_but_spied spied.1.2 plain.1.2.
Proof.
  pose proof (exec_spied p (newCustomResponseWriter (spy w))
                (newCustomResponseWriter w) r) as Hx.
  cbv zeta.
  destruct (exec p (newCustomResponseWriter (spy w)) r) as [[tr1 c1] r1].
  destruct (exec p (newCustomResponseWriter w) r) as [[tr2 c2] r2].
  destruct Hx as (Ht & Hs & _); [repeat split|]. now split.
Qed.

(** A partial write: three bytes offered, room for two. *)
Example size_partial_write :
  let '(tr, crw, _) :=
    ServeHTTP Sample.myHandler
      (newCustomResponseWriter (Sample.mkConn 2 [] false)) (Sample.req "/") in
  tr = [(CallWrite Sample.bar, ReplyWrite 2 (Some Sample.errShortWrite))] /\
  size crw = 2.
Proof. vm_compute. split; reflexivity. Qed.

(** Where the exact sum leaves [int]: a writer that claims the largest
    [int] twice. *)
Example size_wraps :
  let twice : Prog :=
    Invoke (CallWrite []) (fun _ => Invoke (CallWrite []) (fun _ => Return)) in
  let '(_, crw, _) :=
    exec twice (newCustomResponseWriter (Sample.mkLiar MaxInt)) (Sample.req "/") in
  size crw = -2.
Proof. vm_compute. reflexivity. Qed.

(** C7. [Hijack] on an observer whose wrapped writer is no [http.Hijacker]
    returns, as a value, a nil connection, a nil buffer and an error with
    its message, and leaves the observer as it was; when the wrapped writer
    is one, [Hijack] returns what the wrapped writer's [Hijack] returned.
    No other error originates in the observer: an error in the reply to
    any call is the one the wrapped writer returned for that call, or it
    is this one. *)
Theorem Hijack_delegates_or_reports {W : Type} `{http_ResponseWriter W}
    (c : customResponseWriter W) :
  (@http_Hijacker W _ = None ->
   customResponseWriter_Hijack c = ((None, None, Some errNotHijacker), c) /\
   Error errNotHijacker =
     "ResponseWriter does not implement the Hijacker interface") /\
  (forall hj, @http_Hijacker W _ = Some hj ->
   customResponseWriter_Hijack c =
     (fst (hj (ResponseWriter c)),
      mkCRW (snd (hj (ResponseWriter c))) (status c) (size c))) /\
  (forall c0 e, reply_error (fst (invoke c0 c)) = Some e ->
   reply_error (fst (invoke c0 (ResponseWriter c))) = Some e \/
   (c0 = CallHijack /\ @http_Hijacker W _ = None /\ e = errNotHijacker)).
Proof.
  split; [|split].
  - intros Hn. unfold customResponseWriter_Hijack. rewrite Hn. split; reflexivity.
  - intros hj Hs. unfold customResponseWriter_Hijack. rewrite Hs.
    destruct (hj (ResponseWriter c)) as [res w']. reflexivity.
  - intros c0 e. destruct c0; simpl.
    + discriminate.
    + unfold customResponseWriter_Write.
      destruct (rw_Write b (ResponseWriter c)) as [[n err] w']. simpl. auto.
    + unfold customResponseWriter_Flush. destruct http_Flusher; discriminate.
    + unfold customResponseWriter_Hijack.
      destruct http_Hijacker as [hj|].
      * destruct (hj (ResponseWriter c)) as [[[conn brw] err] w']. simpl. auto.
      * simpl. intros [= <-]. right. repeat split.
Qed.

Lemma Hijack_delegates_or_reports_witness :
  customResponseWriter_Hijack (newCustomResponseWriter Sample.NewRecorder) =
    ((None, None, Some errNotHijacker), newCustomResponseWriter Sample.NewRecorder) /\
  customResponseWriter_Hijack (newCustomResponseWriter (Sample.mkConn 2 [] false)) =
    ((Some 7%nat, Some 8%nat, None),
     mkCRW (Sample.mkConn 2 [] true) 200 0) /\
  (reply_error (fst (invoke (CallWrite Sample.bar) (Sample.mkConn 2 [] false))) =
     Some Sample.errShortWrite \/
   (CallWrite Sample.bar = CallHijack /\
    @http_Hijacker Sample.Conn _ = None /\ Sample.errShortWrite = errNotHijacker)).
Proof.
  split; [|split].
  - apply (proj1 (Hijack_delegates_or_reports
             (newCustomResponseWriter Sample.NewRecorder))). reflexivity.
  - apply (proj1 (proj2 (Hijack_delegates_or_reports
             (newCustomResponseWriter (Sample.mkConn 2 [] false)))) Sample.Conn_Hijack).
    reflexivity.
  - apply (proj2 (proj2 (Hijack_delegates_or_reports
             (newCustomResponseWriter (Sample.mkConn 2 [] false))))
             (CallWrite Sample.bar) Sample.errShortWrite).
    reflexivity.
Defined.

(** ** The wrapping handler *)

Lemma isIgnored_In (ignored : list string) (r : Request) :
  isIgnored ignored r = true <-> In (RequestURI r) ignored.
Proof.
  induction ignored as [|u rest IH]; simpl.
  - split; [discriminate | tauto].
  - destruct (String.eqb_spec u (RequestURI r)) as [->|Hne].
    + split; auto.
    + rewrite IH. split; [auto | intros [Hu|Hin]; [contradiction | exact Hin]].
Qed.

Lemma isIgnored_not_In (ignored : list string) (r : Request) :
  isIgnored ignored r = false <-> ~ In (RequestURI r) ignored.
Proof.
  rewrite <- isIgnored_In. destruct (isIgnored ignored r).
  - split; [discriminate | intros Hn; now destruct Hn].
  - split; [intros _ [=] | reflexivity].
Qed.

Section AddressLoop.
Context `{GoStd}.



End AddressLoop.

(** C1. The wrapped handler, once the inner handler has returned, prints
    nothing when the request target, the raw [RequestURI] string with its
    query, is equal to an entry of [IgnoredRequestURIs], and prints one
    line on its logger, after what was printed before, when it is equal to
    none.  Membership is equality of strings: nothing is parsed and no
    prefix or pattern is tried. *)
Theorem Handler_logs_once_unless_ignored `{GoStd} {W : Type} `{http_ResponseWriter W}
    (l : Logger) (next : http_Handler) (w : W) (r : Request)
    (elapsed : Z) (sink : list log_Line) :
  let out := Logger_Handler l next w r elapsed sink in
  let r' := out.1.2 in
  (In (RequestURI r') (IgnoredRequestURIs (opt l)) -> out.2 = sink) /\
  (~ In (RequestURI r') (IgnoredRequestURIs (opt l)) ->
   exists msg, out.2 = sink ++ [mkLine (Logger_log l) msg]).
Proof.
  cbv zeta. unfold Logger_Handler.
  destruct (ServeHTTP next (newCustomResponseWriter w) r) as [[tr crw] r'].
  destruct (isIgnored (IgnoredRequestURIs (opt l)) r') eqn:Hig; simpl.
  - split; [reflexivity|]. intros Hn. apply isIgnored_In in Hig. contradiction.
  - split.
    + intros Hin. apply isIgnored_In in Hin. congruence.
    + intros _. eexists. reflexivity.
Qed.

(** The request the wrapped handler reads is the one it was given when the
    inner handler assigns to none of its fields. *)
Lemma Handler_request_kept `{GoStd} {W : Type} `{http_ResponseWriter W}
    (l : Logger) (next : http_Handler) (w : W) (r : Request)
    (elapsed : Z) (sink : list log_Line) :
  read_only (next r) ->
  snd (fst (Logger_Handler l next w r elapsed sink)) = r.
Proof.
  intros Hro. unfold Logger_Handler, ServeHTTP.
  pose proof (exec_read_only (next r) (newCustomResponseWriter w) r Hro) as Hr.
  destruct (exec (next r) (newCustomResponseWriter w) r) as [[tr crw] r'].
  simpl in Hr. subst r'.
  destruct (isIgnored (IgnoredRequestURIs (opt l)) r); reflexivity.
Qed.

Lemma Handler_logs_once_unless_ignored_witness :
  snd (Logger_Handler (H := Sample.std) (New [Sample.options]) Sample.myHandler
         Sample.NewRecorder (Sample.req "/foo") 1500 []) = [] /\
  exists msg,
    snd (Logger_Handler (H := Sample.std) (New [Sample.options]) Sample.myHandler
           Sample.NewRecorder (Sample.req "/foo?page=2") 1500 []) =
    [] ++ [mkLine (Logger_log (New [Sample.options])) msg].
Proof.
  split.
  - apply (proj1 (Handler_logs_once_unless_ignored (H := Sample.std)
             (New [Sample.options]) Sample.myHandler Sample.NewRecorder
             (Sample.req "/foo") 1500 [])).
    simpl. auto.
  - apply (proj2 (Handler_logs_once_unless_ignored (H := Sample.std)
             (New [Sample.options]) Sample.myHandler Sample.NewRecorder
             (Sample.req "/foo?page=2") 1500 [])).
    simpl. intros [Hf|[Hf|[]]]; discriminate.
Defined.

(** Equality, not prefix, not parsed path: with "/foo" ignored, the targets
    "/foo?page=2", "/foo/" and "/fo" are all logged. *)
Example ignore_is_exact :
  map (fun uri =>
         length (snd (Logger_Handler (H := Sample.std) (New [Sample.options])
                        Sample.myHandler Sample.NewRecorder (Sample.req uri) 0 [])))
      ["/foo"; "/foo?page=2"; "/foo/"; "/fo"; "/favicon.ico"]
  = [0; 1; 1; 1; 0]%nat.
Proof. vm_compute. reflexivity. Qed.



(** C9. For a request that is not ignored, the message of the one line
    printed is: the address between parentheses, a space, then between
    double quotes the method, the request target and the protocol of the
    request, as they are and a space apart, then the status the observer
    recorded, the size it accumulated and the elapsed time, each after a
    space. *)
Theorem Handler_line_shape `{GoStd} {W : Type} `{http_ResponseWriter W}
    (l : Logger) (next : http_Handler) (w : W) (r : Request)
    (elapsed : Z) (sink : list log_Line) :
  let served := ServeHTTP next (newCustomResponseWriter w) r in
  let crw := served.1.2 in
  let r' := served.2 in
  ~ In (RequestURI r') (IgnoredRequestURIs (opt l)) ->
  (Logger_Handler l next w r elapsed sink).2 =
    sink ++
    [ {| line_logger := Logger_log l;
         line_msg :=
           "(" +:+ remoteAddr l r' +:+ ") " +:+
           dquote +:+ Method r' +:+ " " +:+ RequestURI r' +:+ " " +:+ Proto r' +:+
           dquote +:+ " " +:+
           fmt_d (status crw) +:+ " " +:+ fmt_d (size crw) +:+ " " +:+
           time_Duration_String elapsed |} ].
Proof.
  cbv zeta. unfold Logger_Handler.
  destruct (ServeHTTP next (newCustomResponseWriter w) r) as [[tr crw] r'].
  simpl. intros Hn. apply isIgnored_not_In in Hn. rewrite Hn. reflexivity.
Qed.

Lemma Handler_line_shape_witness :
  (Logger_Handler (H := Sample.std) (New [Sample.options]) Sample.twiceHandler
     (Sample.mkConn 2 [] false)
     (Sample.withHeader "X-Forwarded-Proto" "12.34.56.78"
        (Sample.req "/foo/wow?q=search-term&print=1#comments"))
     1500 []).2 =
  [ {| line_logger := log_New (writer_at 1) "[app] " 0;
       line_msg :=
         "(12.34.56.78) " +:+ dquote +:+
         "GET /foo/wow?q=search-term&print=1#comments HTTP/1.1" +:+ dquote +:+
         " 500 2 1500ns" |} ].
Proof.
  etransitivity.
  - apply (Handler_line_shape (H := Sample.std) (New [Sample.options])
             Sample.twiceHandler (Sample.mkConn 2 [] false)
             (Sample.withHeader "X-Forwarded-Proto" "12.34.56.78"
                (Sample.req "/foo/wow?q=search-term&print=1#comments"))
             1500 []).
    simpl. intros [Hf|[Hf|[]]]; discriminate.
  - vm_compute. reflexivity.
Defined.

(** * Further properties of the code *)

(** ** The constructor, continued *)

(** X1. The line logger writes to [Out] when one is given and to standard
    output when [Out] is nil; the options kept in the [Logger] are the
    caller's first argument as passed, with nothing resolved in them: a
    nil [Out] stays nil there. *)
Theorem New_destination (o : Options) (rest : list Options) :
  let l := New (o :: rest) in
  (forall w, Out o = Some w -> log_out (Logger_log l) = w) /\
  (Out o = None -> log_out (Logger_log l) = os_Stdout /\ Out (opt l) = None) /\
  opt l = o.
Proof.
  cbn. unfold New_output. split; [|split].
  - intros w ->. reflexivity.
  - intros Hn. rewrite Hn. split; reflexivity.
  - reflexivity.
Qed.

Lemma New_destination_witness :
  log_out (Logger_log (New [Sample.options; Options_zero])) = writer_at 1 /\
  log_out (Logger_log (New [Options_zero; Sample.options])) = os_Stdout /\
  Out (opt (New [Options_zero; Sample.options])) = None.
Proof.
  split.
  - apply (proj1 (New_destination Sample.options [Options_zero]) (writer_at 1)).
    reflexivity.
  - apply (proj1 (proj2 (New_destination Options_zero [Sample.options]))).
    reflexivity.
Defined.

(** X2. The flags handed to [log.New] are never the sentinel -1, and they
    are 0, no decoration at all, only for [OutputFlags] equal to -1: an
    [OutputFlags] of 0 cannot ask for it. *)
Theorem New_flags_never_sentinel (o : Options) (rest : list Options) :
  let flags := log_flags (Logger_log (New (o :: rest))) in
  flags <> -1 /\ (flags = 0 <-> OutputFlags o = -1).
Proof.
  cbn. unfold New_flags.
  destruct (Z.eqb_spec (OutputFlags o) (-1)) as [Hm|Hm].
  - split; [discriminate | tauto].
  - destruct (Z.eqb_spec (OutputFlags o) 0) as [Hz|Hz]; simpl.
    + split; [discriminate|]. split; [discriminate | contradiction].
    + split; [assumption|]. split; [contradiction | contradiction].
Qed.

Lemma New_flags_never_sentinel_witness :
  log_flags (Logger_log (New [Sample.options])) = 0 /\
  OutputFlags Options_zero <> -1.
Proof.
  split.
  - apply (proj2 (proj2 (New_flags_never_sentinel Sample.options []))).
    reflexivity.
  - intros Hs.
    pose proof (proj2 (proj2 (New_flags_never_sentinel Options_zero [])) Hs) as Hf.
    discriminate Hf.
Defined.

(** ** The observer as a relay *)

Section Relay.
Context {W : Type} `{http_ResponseWriter W}.

Lemma invoke_reaching (c0 : Call) (c c' : customResponseWriter (Spy W)) (rep : Reply) :
  invoke c0 c = (rep, c') ->
  spy_log (ResponseWriter c') = spy_log (ResponseWriter c) ++ reaching W [(c0, rep)].
Proof.
  unfold reaching. destruct c0; simpl.
  - intros [= <- <-]. reflexivity.
  - unfold customResponseWriter_Write. simpl. unfold spy_Write.
    destruct (rw_Write b (spy_inner (ResponseWriter c))) as [[n err] w'].
    intros [= <- <-]. reflexivity.
  - unfold customResponseWriter_Flush. simpl.
    destruct http_Flusher as [f|]; simpl; intros [= <- <-]; simpl.
    + reflexivity.
    + now rewrite app_nil_r.
  - unfold customResponseWriter_Hijack. simpl.
    destruct http_Hijacker as [hj|]; simpl.
    + unfold spy_Hijack.
      destruct (hj (spy_inner (ResponseWriter c))) as [[[conn brw] err] w'].
      intros [= <- <-]. reflexivity.
    + intros [= <- <-]. simpl. now rewrite app_nil_r.
Qed.

Lemma exec_reaching (p : Prog) (c : customResponseWriter (Spy W)) (r : Request) :
  let out := exec p c r in
  spy_log (ResponseWriter out.1.2) =
    spy_log (ResponseWriter c) ++ reaching W out.1.1.
Proof.
  cbv zeta. revert c r. induction p as [|c0 k IH|f k IH]; intros c r; simpl.
  - now rewrite app_nil_r.
  - destruct (invoke c0 c) as [rep c1] eqn:Hstep.
    specialize (IH rep c1 r).
    destruct (exec (k rep) c1 r) as [[tr c2] r2]. simpl in IH |- *.
    rewrite IH, (invoke_reaching _ _ _ _ Hstep), <- app_assoc.
    f_equal. unfold reaching. simpl.
    destruct (implements W c0); reflexivity.
  - apply IH.
Qed.

(** One call that [W] implements, made on the observer and made on the
    writer it wraps: the same reply, and the same writer afterwards. *)
Lemma invoke_through (c0 : Call) (c : customResponseWriter W) :
  implements W c0 = true ->
  fst (invoke c0 c) = fst (invoke c0 (ResponseWriter c)) /\
  ResponseWriter (snd (invoke c0 c)) = snd (invoke c0 (ResponseWriter c)).
Proof.
  destruct c0; simpl.
  - intros _. split; reflexivity.
  - intros _. unfold customResponseWriter_Write.
    destruct (rw_Write b (ResponseWriter c)) as [[n err] w']. split; reflexivity.
  - unfold customResponseWriter_Flush.
    destruct http_Flusher; [|discriminate]. intros _. split; reflexivity.
  - unfold customResponseWriter_Hijack.
    destruct http_Hijacker as [hj|]; [|discriminate]. intros _.
    destruct (hj (ResponseWriter c)) as [[[conn brw] err] w']. split; reflexivity.
Qed.

Lemma exec_through (p : Prog) (c : customResponseWriter W) (r : Request) :
  uses_only (implements W) p ->
  let a := exec p c r in
  let b := exec p (ResponseWriter c) r in
  a.1.1 = b.1.1 /\ ResponseWriter a.1.2 = b.1.2 /\ a.2 = b.2.
Proof.
  cbv zeta. revert c r. induction p as [|c0 k IH|f k IH]; intros c r Hu; simpl.
  - repeat split.
  - destruct Hu as [Hok Hk].
    destruct (invoke_through c0 c Hok) as [Hrep Hw].
    destruct (invoke c0 c) as [rep c1], (invoke c0 (ResponseWriter c)) as [rep' w1].
    simpl in Hrep, Hw. subst rep' w1.
    specialize (IH rep c1 r (Hk rep)).
    destruct (exec (k rep) c1 r) as [[tr c2] r2].
    destruct (exec (k rep) (ResponseWriter c1) r) as [[tr' w2] r2'].
    simpl in IH |- *. destruct IH as (-> & -> & ->). repeat split.
  - now apply IH.
Qed.

End Relay.

(** X3. The observer is a relay and nothing more. Over any request, the
    calls that reach the wrapped writer are the calls the handler made on
    the observer, once each, in the same order, with the same arguments
    and the same results, less the [Flush] and [Hijack] calls the wrapped
    writer has no method for; the observer adds no call of its own and
    checks no status code. *)
Theorem observer_relays {W : Type} `{http_ResponseWriter W}
    (p : Prog) (w : W) (r : Request) :
  let out := exec p (newCustomResponseWriter (spy w)) r in
  spy_log (ResponseWriter out.1.2) = reaching W out.1.1.
Proof. apply (exec_reaching p (newCustomResponseWriter (spy w)) r). Qed.

(** On a recorder, which can flush and cannot be hijacked: the write and
    the flush go through, the take-over stops at the observer. *)
Example observer_relays_recorder :
  let p := Invoke (CallWrite Sample.bar) (fun _ =>
           Invoke CallHijack (fun _ => Invoke CallFlush (fun _ => Return))) in
  let out := exec p (newCustomResponseWriter (spy Sample.NewRecorder)) (Sample.req "/") in
  map fst out.1.1 = [CallWrite Sample.bar; CallHijack; CallFlush] /\
  map fst (spy_log (ResponseWriter out.1.2)) = [CallWrite Sample.bar; CallFlush].
Proof. vm_compute. split; reflexivity. Qed.

(** X4. Calls of [WriteHeader], [Write], [Flush] and [Hijack], in any
    number and each chosen on the replies to the ones before, with [Flush]
    and [Hijack] among them only when the wrapped writer implements them:
    made on a fresh observer they get the replies they get when made on
    the writer itself, and they leave the writer in the same state and the
    request with the same assignments.  (Of the other optional interfaces
    of a writer nothing is said: the observer does not offer them.) *)
Theorem observer_passes_through {W : Type} `{http_ResponseWriter W}
    (p : Prog) (w : W) (r : Request) :
  uses_only (implements W) p ->
  let through := exec p (newCustomResponseWriter w) r in
  let direct := exec p w r in
  through.1.1 = direct.1.1 /\
  ResponseWriter through.1.2 = direct.1.2 /\
  through.2 = direct.2.
Proof.
  intros Hu. apply (exec_through p (newCustomResponseWriter w) r Hu).
Qed.

Lemma observer_passes_through_witness :
  let p := Sample.flushHandler (Sample.req "/a") in
  let through := exec p (newCustomResponseWriter Sample.NewRecorder) (Sample.req "/a") in
  let direct := exec p Sample.NewRecorder (Sample.req "/a") in
  through.1.1 = direct.1.1 /\
  ResponseWriter through.1.2 = direct.1.2 /\
  through.2 = direct.2.
Proof.
  apply (observer_passes_through (Sample.flushHandler (Sample.req "/a"))
           Sample.NewRecorder (Sample.req "/a")).
  simpl. repeat split.
Defined.

(** Where the condition on [Hijack] fails, the replies differ: a recorder
    cannot be hijacked, and says so to the type assertion; the observer
    over it passes the assertion and returns an error. *)
Example observer_differs_on_missing_Hijacker :
  fst (invoke CallHijack Sample.NewRecorder) = ReplyNotImplemented /\
  fst (invoke CallHijack (newCustomResponseWriter Sample.NewRecorder)) =
    ReplyHijack None None (Some errNotHijacker).
Proof. split; reflexivity. Qed.

(** X5. Logging never touches the response, and never stands in the way
    of it.  Whatever the options of the logger, ignore list included,
    whatever the elapsed time and whatever was printed before, the wrapped
    handler runs the inner handler on a fresh observer over the response
    writer it was given and leaves that writer and the request as this run
    leaves them; every call of the inner handler that the writer has a
    method for reaches the writer, for an ignored request as for any
    other. *)
Theorem Handler_response_unaffected `{GoStd} {W : Type} `{http_ResponseWriter W}
    (l : Logger) (next : http_Handler) (w : W) (r : Request)
    (elapsed : Z) (sink : list log_Line) :
  let served := ServeHTTP next (newCustomResponseWriter w) r in
  let spied := ServeHTTP next (newCustomResponseWriter (spy w)) r in
  (Logger_Handler l next w r elapsed sink).1 =
    (ResponseWriter served.1.2, served.2) /\
  spy_log (Logger_Handler l next (spy w) r elapsed sink).1.1 =
    reaching W spied.1.1 /\
  forall (l' : Logger) (elapsed' : Z) (sink' : list log_Line),
    (Logger_Handler l next w r elapsed sink).1 =
    (Logger_Handler l' next w r elapsed' sink').1.
Proof.
  cbv zeta.
  assert (Hrun : forall (V : Type) (HV : http_ResponseWriter V) (v : V)
                   (l0 : Logger) (e0 : Z) (s0 : list log_Line),
             (Logger_Handler l0 next v r e0 s0).1 =
             (ResponseWriter (ServeHTTP next (newCustomResponseWriter v) r).1.2,
              (ServeHTTP next (newCustomResponseWriter v) r).2)).
  { intros V HV v l0 e0 s0. unfold Logger_Handler.
    destruct (ServeHTTP next (newCustomResponseWriter v) r) as [[tr crw] r1].
    destruct (isIgnored (IgnoredRequestURIs (opt l0)) r1); reflexivity. }
  split; [apply Hrun | split].
  - rewrite (Hrun (Spy W) _ (spy w) l elapsed sink). simpl.
    apply (exec_reaching (next r) (newCustomResponseWriter (spy w)) r).
  - intros l' elapsed' sink'. now rewrite !Hrun.
Qed.

(** An ignored request is served all the same: the body is written, and
    nothing is printed. *)
Example ignored_request_is_served :
  Logger_Handler (H := Sample.std) (New [Sample.options]) Sample.myHandler
    Sample.NewRecorder (Sample.req "/foo") 10 [] =
  (Sample.mkRecorder 200 Sample.bar true false, Sample.req "/foo", []).
Proof. vm_compute. reflexivity. Qed.

(** ** The ignore list and the address, continued *)

Lemma isIgnored_same_members (l1 l2 : list string) (r : Request) :
  (forall u, In u l1 <-> In u l2) -> isIgnored l1 r = isIgnored l2 r.
Proof.
  intros Hm. pose proof (isIgnored_In l1 r) as H1. pose proof (isIgnored_In l2 r) as H2.
  rewrite (Hm (RequestURI r)) in H1.
  destruct (isIgnored l1 r), (isIgnored l2 r); try reflexivity.
  - symmetry. apply H2, H1. reflexivity.
  - apply H1, H2. reflexivity.
Qed.

(** X6. The ignore list is read as a set: two loggers with the same line
    logger and the same address headers, whose ignore lists have the same
    members in whatever order and however often repeated, handle every
    request alike, response and log. *)
Theorem Handler_ignore_list_as_set `{GoStd} {W : Type} `{http_ResponseWriter W}
    (l1 l2 : Logger) (next : http_Handler) (w : W) (r : Request)
    (elapsed : Z) (sink : list log_Line) :
  Logger_log l1 = Logger_log l2 ->
  RemoteAddressHeaders (opt l1) = RemoteAddressHeaders (opt l2) ->
  (forall u, In u (IgnoredRequestURIs (opt l1)) <-> In u (IgnoredRequestURIs (opt l2))) ->
  Logger_Handler l1 next w r elapsed sink = Logger_Handler l2 next w r elapsed sink.
Proof.
  intros Hlog Hhdr Hign. unfold Logger_Handler, remoteAddr.
  destruct (ServeHTTP next (newCustomResponseWriter w) r) as [[tr crw] r1].
  rewrite (isIgnored_same_members _ _ r1 Hign), Hlog, Hhdr. reflexivity.
Qed.

Lemma Handler_ignore_list_as_set_witness :
  Logger_Handler (H := Sample.std)
    (New [mkOptions "app" false [] None 0 ["/foo"; "/favicon.ico"]])
    Sample.myHandler Sample.NewRecorder (Sample.req "/foo") 5 [] =
  Logger_Handler (H := Sample.std)
    (New [mkOptions "app" false [] None 0 ["/favicon.ico"; "/foo"; "/foo"]])
    Sample.myHandler Sample.NewRecorder (Sample.req "/foo") 5 [].
Proof.
  apply (Handler_ignore_list_as_set (H := Sample.std)
           (New [mkOptions "app" false [] None 0 ["/foo"; "/favicon.ico"]])
           (New [mkOptions "app" false [] None 0 ["/favicon.ico"; "/foo"; "/foo"]])).
  - reflexivity.
  - reflexivity.
  - intros u. simpl. tauto.
Defined.




(** ** The size, under the contract of [io.Writer] *)

Section Counting.
Context {W : Type} `{http_ResponseWriter W}.

Lemma exec_size_plain (p : Prog) (c : customResponseWriter W) (r : Request) :
  size (exec p c r).1.2 = fold_left int_add (counts_of (exec p c r).1.1) (size c).
Proof.
  revert c r. induction p as [|c0 k IH|f k IH]; intros c r; simpl.
  - reflexivity.
  - destruct c0; simpl.
    + specialize (IH ReplyNone (customResponseWriter_WriteHeader code c) r).
      destruct (exec (k ReplyNone) _ r) as [[tr c2] r2]. exact IH.
    + unfold customResponseWriter_Write.
      destruct (rw_Write b (ResponseWriter c)) as [[n err] w'].
      specialize (IH (ReplyWrite n err)
                    (mkCRW w' (status c) (int_add (size c) n)) r).
      destruct (exec (k (ReplyWrite n err)) _ r) as [[tr c2] r2]. exact IH.
    + specialize (IH ReplyNone (customResponseWriter_Flush c) r).
      destruct (exec (k ReplyNone) _ r) as [[tr c2] r2].
      simpl in IH |- *. rewrite IH. unfold customResponseWriter_Flush.
      destruct http_Flusher; reflexivity.
    + destruct (customResponseWriter_Hijack c) as [[[conn brw] err] c1] eqn:Hh.
      specialize (IH (ReplyHijack conn brw err) c1 r).
      destruct (exec (k (ReplyHijack conn brw err)) c1 r) as [[tr c2] r2].
      simpl in IH |- *. rewrite IH. f_equal.
      unfold customResponseWriter_Hijack in Hh.
      destruct http_Hijacker as [hj|].
      * destruct (hj (ResponseWriter c)) as [res w']. now inversion Hh.
      * now inversion Hh.
  - apply IH.
Qed.

Lemma exec_counts_bounded (p : Prog) (c : customResponseWriter W) (r : Request) :
  obeys_io_Writer W ->
  Forall (fun x => 0 <= snd (fst x) <= Z.of_nat (length (fst (fst x))))
         (writes_of (exec p c r).1.1).
Proof.
  intros Hc. revert c r. induction p as [|c0 k IH|f k IH]; intros c r; simpl.
  - constructor.
  - destruct (invoke c0 c) as [rep c1] eqn:Hstep.
    specialize (IH rep c1 r).
    destruct (exec (k rep) c1 r) as [[tr c2] r2]. simpl in IH |- *.
    destruct c0, rep; try exact IH.
    constructor; [|exact IH]. simpl.
    simpl in Hstep. unfold customResponseWriter_Write in Hstep.
    pose proof (Hc b (ResponseWriter c)) as Hb.
    destruct (rw_Write b (ResponseWriter c)) as [[n' err'] w'].
    inversion Hstep; subst. exact Hb.
  - apply IH.
Qed.

End Counting.

Lemma Z_sum_bounded (ws : list (list byte * Z * option error)) :
  Forall (fun x => 0 <= snd (fst x) <= Z.of_nat (length (fst (fst x)))) ws ->
  0 <= Z_sum (map (fun x => snd (fst x)) ws)
    <= Z_sum (map (fun x => Z.of_nat (length (fst (fst x)))) ws).
Proof.
  induction 1 as [|[[b n] e] ws Hx _ IH]; unfold Z_sum in *; simpl in *; lia.
Qed.

(** X8. Over a response writer that keeps the contract of [io.Writer], a
    count between 0 and the length offered, and for a response of which
    the bytes offered add up to an [int]: the size of a fresh observer,
    after any sequence of calls, is the exact sum of the counts returned,
    it is not negative, and it does not exceed the number of bytes the
    handler offered. *)
Theorem size_at_most_offered {W : Type} `{http_ResponseWriter W}
    (p : Prog) (w : W) (r : Request) :
  obeys_io_Writer W ->
  let out := exec p (newCustomResponseWriter w) r in
  let offered := Z_sum (offered_of out.1.1) in
  offered <= MaxInt ->
  size out.1.2 = Z_sum (counts_of out.1.1) /\ 0 <= size out.1.2 <= offered.
Proof.
  intros Hc. cbv zeta. intros Hfit.
  pose proof (exec_size_plain p (newCustomResponseWriter w) r) as Hsz.
  pose proof (exec_counts_bounded p (newCustomResponseWriter w) r Hc) as Hb.
  apply Z_sum_bounded in Hb.
  change (size (newCustomResponseWriter w)) with 0 in Hsz.
  fold (int_sum (counts_of (exec p (newCustomResponseWriter w) r).1.1)) in Hsz.
  unfold offered_of in Hfit |- *. unfold counts_of in Hsz |- *.
  rewrite int_sum_exact in Hsz.
  - rewrite Hsz. split; [reflexivity | exact Hb].
  - unfold in_range, MinInt, MaxInt, intSize in *. lia.
Qed.

Lemma size_at_most_offered_witness :
  let out := exec (Sample.twiceHandler (Sample.req "/"))
               (newCustomResponseWriter (Sample.mkConn 2 [] false)) (Sample.req "/") in
  size out.1.2 = Z_sum (counts_of out.1.1) /\
  0 <= size out.1.2 <= Z_sum (offered_of out.1.1).
Proof.
  apply (size_at_most_offered (Sample.twiceHandler (Sample.req "/"))
           (Sample.mkConn 2 [] false) (Sample.req "/")).
  - intros b c. simpl. lia.
  - vm_compute. discriminate.
Defined.

(** ** One logger, many requests *)

Section Serving.
Context `{GoStd} {W : Type} `{http_ResponseWriter W}.

(** What a request adds to the sink does not depend on what is in it. *)
Lemma Handler_sink_append (l : Logger) (next : http_Handler) (w : W) (r : Request)
    (elapsed : Z) (sink : list log_Line) :
  (Logger_Handler l next w r elapsed sink).2 =
  sink ++ (Logger_Handler l next w r elapsed []).2.
Proof.
  unfold Logger_Handler.
  destruct (ServeHTTP next (newCustomResponseWriter w) r) as [[tr crw] r1].
  destruct (isIgnored (IgnoredRequestURIs (opt l)) r1); simpl.
  - now rewrite app_nil_r.
  - reflexivity.
Qed.

Lemma Handler_lines (l : Logger) (next : http_Handler) (w : W) (r : Request)
    (elapsed : Z) :
  read_only (next r) ->
  let added := (Logger_Handler l next w r elapsed []).2 in
  length added = (if isIgnored (IgnoredRequestURIs (opt l)) r then 0 else 1)%nat /\
  Forall (fun ln => line_logger ln = Logger_log l) added.
Proof.
  intros Hro. cbv zeta. unfold Logger_Handler, ServeHTTP.
  pose proof (exec_read_only (next r) (newCustomResponseWriter w) r Hro) as Hr.
  destruct (exec (next r) (newCustomResponseWriter w) r) as [[tr crw] r1].
  simpl in Hr. subst r1.
  destruct (isIgnored (IgnoredRequestURIs (opt l)) r); simpl.
  - split; [reflexivity | constructor].
  - split; [reflexivity | repeat constructor].
Qed.

End Serving.

(** X9. One wrapped handler serving requests one after another, the inner
    handler leaving the requests as they are: the lines already in the
    sink stay, in place; what is added are lines of this logger, as many
    as there are requests whose target is not in the ignore list. *)
Theorem Logger_serve_counts `{GoStd} {W : Type} `{http_ResponseWriter W}
    (l : Logger) (next : http_Handler)
    (reqs : list (W * Request * Z)) (sink : list log_Line) :
  (forall x, In x reqs -> read_only (next (snd (fst x)))) ->
  exists added,
    Logger_serve l next reqs sink = sink ++ added /\
    length added =
      length (List.filter
                (fun x => negb (isIgnored (IgnoredRequestURIs (opt l)) (snd (fst x))))
                reqs) /\
    Forall (fun ln => line_logger ln = Logger_log l) added.
Proof.
  revert sink. induction reqs as [|[[w r] e] reqs IH]; intros sink Hro.
  - exists []. simpl. rewrite app_nil_r. repeat split. constructor.
  - assert (Hr : read_only (next r)) by (apply (Hro (w, r, e)); now left).
    destruct (Handler_lines l next w r e Hr) as [Hlen Hall].
    destruct (IH ((Logger_Handler l next w r e sink).2)) as (added & Heq & Hn & Hf).
    { intros x Hx. apply Hro. now right. }
    exists ((Logger_Handler l next w r e []).2 ++ added). split; [|split].
    + unfold Logger_serve in Heq |- *. simpl. rewrite Heq.
      rewrite (Handler_sink_append l next w r e sink). now rewrite app_assoc.
    + rewrite length_app, Hlen, Hn. simpl.
      destruct (isIgnored (IgnoredRequestURIs (opt l)) r); reflexivity.
    + apply Forall_app. split; assumption.
Qed.

Lemma Logger_serve_counts_witness :
  exists added,
    Logger_serve (H := Sample.std) (New [Sample.options]) Sample.myHandler
      [(Sample.NewRecorder, Sample.req "/a", 10);
       (Sample.NewRecorder, Sample.req "/foo", 20);
       (Sample.NewRecorder, Sample.req "/foo/", 30)] [] = [] ++ added /\
    length added = 2%nat /\
    Forall (fun ln => line_logger ln = Logger_log (New [Sample.options])) added.
Proof.
  apply (Logger_serve_counts (H := Sample.std) (New [Sample.options]) Sample.myHandler
           [(Sample.NewRecorder, Sample.req "/a", 10);
            (Sample.NewRecorder, Sample.req "/foo", 20);
            (Sample.NewRecorder, Sample.req "/foo/", 30)] []).
  intros x _. simpl. intros rep. exact I.
Defined.

(** ** The observer and the handler's view of it *)

Lemma codes_of_reaching {W : Type} `{http_ResponseWriter W} (tr : list (Call * Reply)) :
  codes_of (reaching W tr) = codes_of tr.
Proof.
  unfold reaching. induction tr as [|[c rep] tr IH]; [reflexivity|].
  destruct c; simpl.
  - now rewrite IH.
  - exact IH.
  - destruct http_Flusher; exact IH.
  - destruct http_Hijacker; exact IH.
Qed.

(** X10. The status a fresh observer ends with is a code the wrapped
    writer was given: the one of the last [WriteHeader] that reached it,
    and 200 when none did. *)
Theorem status_is_last_forwarded {W : Type} `{http_ResponseWriter W}
    (p : Prog) (w : W) (r : Request) :
  let out := exec p (newCustomResponseWriter (spy w)) r in
  status out.1.2 = List.last (codes_of (spy_log (ResponseWriter out.1.2))) 200.
Proof.
  cbv zeta.
  pose proof (exec_reaching p (newCustomResponseWriter (spy w)) r) as Hlog.
  pose proof (exec_status p (newCustomResponseWriter (spy w)) r) as Hst.
  cbv zeta in Hlog. simpl in Hlog.
  destruct (exec p (newCustomResponseWriter (spy w)) r) as [[tr crw] r1].
  simpl in Hlog |- *. rewrite Hlog, Hst. simpl.
  now rewrite codes_of_reaching.
Qed.

(** X11. A handler is never told by the observer that it cannot flush or
    cannot be hijacked: on the observer both type assertions succeed,
    whatever it wraps, and no call ends as not implemented.  Over a
    writer that cannot flush, [Flush] then does nothing at all. *)
Theorem observer_never_declines {W : Type} `{http_ResponseWriter W}
    (p : Prog) (w : W) (r : Request) :
  Forall (fun e => snd e <> ReplyNotImplemented)
         (exec p (newCustomResponseWriter w) r).1.1 /\
  (@http_Flusher W _ = None ->
   forall c : customResponseWriter W, invoke CallFlush c = (ReplyNone, c)).
Proof.
  split.
  - generalize (newCustomResponseWriter w) as c. revert r.
    induction p as [|c0 k IH|f k IH]; intros r c; simpl.
    + constructor.
    + destruct (invoke c0 c) as [rep c1] eqn:Hstep.
      specialize (IH rep r c1).
      destruct (exec (k rep) c1 r) as [[tr c2] r2]. simpl in IH |- *.
      constructor; [|exact IH]. simpl.
      destruct c0; simpl in Hstep.
      * inversion Hstep. discriminate.
      * unfold customResponseWriter_Write in Hstep.
        destruct (rw_Write b (ResponseWriter c)) as [[n err] w'].
        inversion Hstep. discriminate.
      * inversion Hstep. discriminate.
      * destruct (customResponseWriter_Hijack c) as [[[conn brw] err] c'].
        inversion Hstep. discriminate.
    + apply IH.
  - intros Hn c. simpl. unfold customResponseWriter_Flush. now rewrite Hn.
Qed.

Lemma observer_never_declines_witness :
  invoke CallFlush (newCustomResponseWriter (Sample.mkConn 2 [] false)) =
    (ReplyNone, newCustomResponseWriter (Sample.mkConn 2 [] false)).
Proof.
  apply (proj2 (observer_never_declines Return (Sample.mkConn 2 [] false)
                  (Sample.req "/"))).
  reflexivity.
Defined.
